(** * public-ip: the query orchestration engine, embedded and verified

    The development follows the CommonJS sources:
    - [utils.js]  : [validateIp], [createAbortSignal], [withAbortSignal];
    - [query.js]  : [queryHttps], [createQuery];
    - [index.js]  : [createDnsQuery], [queryDns], [queryAll],
                    [nodeQueryFunction], [publicIpv4], [publicIpv6];
    - [shared.js] : [createIpFunction].

    JavaScript strings are sequences of UTF-16 code units; promises are
    described by the instant at which they settle and the value they settle
    with, on one logical time line. *)

From Stdlib Require Import List NArith Arith Bool Lia String Ascii DecimalString.
Import ListNotations.

Set Implicit Arguments.
Set Warnings "-register-all".


(** ** JavaScript strings *)

Module JsString.

(** One UTF-16 code unit. *)
Definition unit16 := N.

Definition jsstring := list unit16.

(** A string literal of the development, as code units (ASCII only). *)
Fixpoint js (s : string) : jsstring :=
  match s with
  | EmptyString => []
  | String a rest => N_of_ascii a :: js rest
  end.

Definition eqb (a b : jsstring) : bool :=
  if list_eq_dec N.eq_dec a b then true else false.

(** [WhiteSpace] and [LineTerminator] of ECMAScript: the code units removed
    by [String.prototype.trim]. *)
Definition is_space (c : unit16) : bool :=
  match c with
  | 9 | 10 | 11 | 12 | 13 | 32 | 160 | 5760 => true
  | 8232 | 8233 | 8239 | 8287 | 12288 | 65279 => true
  | _ => (8192 <=? c) && (c <=? 8202)
  end%N.

Fixpoint trimStart (s : jsstring) : jsstring :=
  match s with
  | [] => []
  | c :: rest => if is_space c then trimStart rest else s
  end.

Definition trimEnd (s : jsstring) : jsstring := rev (trimStart (rev s)).

(** [s.trim()] *)
Definition trim (s : jsstring) : jsstring := trimEnd (trimStart s).

End JsString.
Export JsString.

(** ** Regular expressions over code units

    [node:net] decides [isIPv4] and [isIPv6] with two anchored regular
    expressions; they are matched here with Brzozowski derivatives. *)

Module Regex.

(** A character class: a union of inclusive ranges. *)
Definition cclass := list (N * N).

Definition in_class (cls : cclass) (c : unit16) : bool :=
  existsb (fun r => (fst r <=? c)%N && (c <=? snd r)%N) cls.

Inductive regex :=
| Void
| Eps
| Chr (cls : cclass)
| Seq (r s : regex)
| Alt (r s : regex)
| Star (r : regex).

Fixpoint nullable (r : regex) : bool :=
  match r with
  | Void => false
  | Eps => true
  | Chr _ => false
  | Seq a b => nullable a && nullable b
  | Alt a b => nullable a || nullable b
  | Star _ => true
  end.

(** No word at all is matched (a syntactic sufficient condition). *)
Fixpoint void (r : regex) : bool :=
  match r with
  | Void => true
  | Eps => false
  | Chr _ => false
  | Seq a b => void a || void b
  | Alt a b => void a && void b
  | Star _ => false
  end.

(** Constructors that drop dead branches, so derivatives stay small. *)
Definition seq (a b : regex) : regex :=
  if void a || void b then Void
  else match a with Eps => b | _ => Seq a b end.

Definition alt (a b : regex) : regex :=
  if void a then b else if void b then a else Alt a b.

Fixpoint deriv (c : unit16) (r : regex) : regex :=
  match r with
  | Void => Void
  | Eps => Void
  | Chr cls => if in_class cls c then Eps else Void
  | Seq a b =>
      if nullable a then alt (seq (deriv c a) b) (deriv c b)
      else seq (deriv c a) b
  | Alt a b => alt (deriv c a) (deriv c b)
  | Star a => seq (deriv c a) (Star a)
  end.

(** [new RegExp('^' + r + '$').test(s)] *)
Fixpoint matches (r : regex) (s : jsstring) : bool :=
  match s with
  | [] => nullable r
  | c :: rest => matches (deriv c r) rest
  end.

(** [r{n}] *)
Fixpoint rep (n : nat) (r : regex) : regex :=
  match n with
  | O => Eps
  | S k => Seq r (rep k r)
  end.

(** [r{0,n}] *)
Fixpoint upto (n : nat) (r : regex) : regex :=
  match n with
  | O => Eps
  | S k => Alt Eps (Seq r (upto k r))
  end.

(** [r{m,n}] with [m <= n] *)
Definition between (m n : nat) (r : regex) : regex :=
  Seq (rep m r) (upto (n - m) r).

(** [r{1,}] *)
Definition plus (r : regex) : regex := Seq r (Star r).

(** [r?] *)
Definition opt (r : regex) : regex := Alt Eps r.

Definition lit (c : N) : regex := Chr [(c, c)].

Fixpoint alts (rs : list regex) : regex :=
  match rs with
  | [] => Void
  | [r] => r
  | r :: rest => Alt r (alts rest)
  end.

Fixpoint seqs (rs : list regex) : regex :=
  match rs with
  | [] => Eps
  | [r] => r
  | r :: rest => Seq r (seqs rest)
  end.

(** Every class occurring in [r] lies inside [P]. *)
Definition class_within (P : unit16 -> bool) (cls : cclass) : bool :=
  forallb (fun r =>
    forallb (fun k => P (fst r + N.of_nat k)%N)
            (List.seq 0 (S (N.to_nat (snd r - fst r)))) || (snd r <? fst r)%N) cls.

Fixpoint within (P : unit16 -> bool) (r : regex) : bool :=
  match r with
  | Void | Eps => true
  | Chr cls => class_within P cls
  | Seq a b | Alt a b => within P a && within P b
  | Star a => within P a
  end.

(** Every word matched by [r] holds the code unit [c] (a syntactic
    sufficient condition). *)
Fixpoint must (c : unit16) (r : regex) : bool :=
  match r with
  | Void => true
  | Eps => false
  | Chr cls => forallb (fun r => (fst r =? c)%N && (snd r =? c)%N) cls
  | Seq a b => must c a || must c b
  | Alt a b => must c a && must c b
  | Star _ => false
  end.

End Regex.
Export Regex.

(** ** [node:net]: [isIPv4] and [isIPv6]

    The two predicates are Node's built-ins; they are written here as the
    regular expressions of Node's [lib/internal/net.js]. *)

Module Net.

Definition digit : regex := Chr [(48, 57)]%N.                (* \d *)
Definition dot : regex := lit 46.
Definition colon : regex := lit 58.

(** [(?:25[0-5]|2[0-4]\d|1\d\d|[1-9]\d|\d)] *)
Definition v4Seg : regex :=
  alts [ seqs [lit 50; lit 53; Chr [(48, 53)]%N];
         seqs [lit 50; Chr [(48, 52)]%N; digit];
         seqs [lit 49; digit; digit];
         seqs [Chr [(49, 57)]%N; digit];
         digit ].

(** [(?:v4Seg\.){3}v4Seg] *)
Definition v4Str : regex := Seq (rep 3 (Seq v4Seg dot)) v4Seg.

Definition IPv4Reg : regex := v4Str.

(** [(?:[0-9a-fA-F]{1,4})] *)
Definition v6Seg : regex :=
  between 1 4 (Chr [(48, 57); (97, 102); (65, 70)]%N).

Definition segColon : regex := Seq v6Seg colon.              (* (?:v6Seg:) *)
Definition colonSeg : regex := Seq colon v6Seg.              (* (?::v6Seg) *)

(** The optional zone index: [(?:%[0-9a-zA-Z-.:]{1,})?] *)
Definition zone : regex :=
  opt (Seq (lit 37)
           (plus (Chr [(48, 57); (97, 122); (65, 90); (45, 45); (46, 46); (58, 58)]%N))).

Definition v6Body : regex :=
  alts [ Seq (rep 7 segColon) (alts [v6Seg; colon]);
         Seq (rep 6 segColon) (alts [v4Str; colonSeg; colon]);
         Seq (rep 5 segColon) (alts [Seq colon v4Str; between 1 2 colonSeg; colon]);
         Seq (rep 4 segColon)
             (alts [seqs [between 0 1 colonSeg; colon; v4Str]; between 1 3 colonSeg; colon]);
         Seq (rep 3 segColon)
             (alts [seqs [between 0 2 colonSeg; colon; v4Str]; between 1 4 colonSeg; colon]);
         Seq (rep 2 segColon)
             (alts [seqs [between 0 3 colonSeg; colon; v4Str]; between 1 5 colonSeg; colon]);
         Seq (rep 1 segColon)
             (alts [seqs [between 0 4 colonSeg; colon; v4Str]; between 1 6 colonSeg; colon]);
         Seq colon
             (alts [seqs [between 0 5 colonSeg; colon; v4Str]; between 1 7 colonSeg; colon]) ].

Definition IPv6Reg : regex := Seq v6Body zone.

Definition isIPv4 (s : jsstring) : bool := matches IPv4Reg s.
Definition isIPv6 (s : jsstring) : bool := matches IPv6Reg s.

End Net.
Export Net.

(** ** JavaScript values that travel as errors and family tags *)

Inductive value :=
| VUndefined
| VNull
| VStr (s : jsstring)
| VError (message : jsstring)                 (* new Error(message) *)
| VTypeError (message : jsstring)
| VDOMException (name : jsstring)             (* AbortError, TimeoutError *)
| VAggregateError (errors : list value)       (* the rejection of Promise.any *)
| VNotFound (cause : value).

(** Modelled from the spec: [core.js], which declares the class
    [IpNotFoundError], is not among the sources.  The Not-Found Error is the
    terminal failure kind, carrying the representative cause as context:
    [new IpNotFoundError({cause})]. *)
Definition IpNotFoundError (cause : value) : value := VNotFound cause.

Definition nullish (v : value) : bool :=
  match v with
  | VUndefined | VNull => true
  | _ => false
  end.

(** [version === 'v6'] *)
Definition is_v6 (version : value) : bool :=
  match version with
  | VStr s => JsString.eqb s (js "v6")
  | _ => false
  end.

(** utils.js:
    [validateIp = (ip, version) =>
       Boolean(ip && (version === 'v6' ? isIPv6(ip) : isIPv4(ip)))] *)
Definition validateIp (ip : jsstring) (version : value) : bool :=
  match ip with
  | [] => false                                   (* the empty string is falsy *)
  | _ => if is_v6 version then isIPv6 ip else isIPv4 ip
  end.

(** The two families the entry points are built for. *)
Inductive family := v4 | v6.

Definition tag (v : family) : value :=
  match v with
  | v4 => VStr (js "v4")
  | v6 => VStr (js "v6")
  end.

(** ** Promises on a logical time line

    A promise is described from outside: it never settles ([None]) or it
    settles at an instant with a value or a rejection reason.  Every
    continuation ([await], a combinator's reaction) runs strictly after the
    settlement it waits for.  Settlements at the same instant are taken in
    list order. *)

Module Promise.

Definition time := nat.

Inductive settlement (A : Type) :=
| Fulfilled (a : A)
| Rejected (reason : value).

Arguments Rejected {A} reason.

Definition promise (A : Type) := option (time * settlement A).

Definition resolve {A} (t : time) (a : A) : promise A := Some (t, Fulfilled a).
Definition reject {A} (t : time) (reason : value) : promise A := Some (t, Rejected reason).

(** The instant a continuation started at [now] resumes after a settlement
    at [t]. *)
Definition resume (now t : time) : time := S (Nat.max now t).

(** [try { const a = await p; k a } catch (e) { h e }] inside an async
    function whose body reached the [await] at [now]. *)
Definition try_await {A B} (now : time) (p : promise A)
    (k : time -> A -> promise B) (h : time -> value -> promise B) : promise B :=
  match p with
  | None => None
  | Some (t, Fulfilled a) => k (resume now t) a
  | Some (t, Rejected e) => h (resume now t) e
  end.

(** [const a = await p; k a] with no handler: a rejection propagates. *)
Definition await {A B} (now : time) (p : promise A)
    (k : time -> A -> promise B) : promise B :=
  try_await now p k (fun t e => reject t e).

(** [return p] from an async function: the function's promise follows [p]. *)
Definition adopt {A} (now : time) (p : promise A) : promise A :=
  await now p (fun t a => resolve t a).

(** The earliest fulfilment of a list of promises. *)
Fixpoint first_fulfilled {A} (ps : list (promise A)) : option (time * A) :=
  match ps with
  | [] => None
  | p :: rest =>
      match p, first_fulfilled rest with
      | Some (t, Fulfilled a), Some (t', a') =>
          if t <=? t' then Some (t, a) else Some (t', a')
      | Some (t, Fulfilled a), None => Some (t, a)
      | _, r => r
      end
  end.

(** When every promise of the list rejects: the instant of the last
    rejection and the reasons, stored by position ([errors[index] = reason]). *)
Fixpoint all_rejected {A} (ps : list (promise A)) : option (time * list value) :=
  match ps with
  | [] => Some (0, [])
  | Some (t, Rejected e) :: rest =>
      match all_rejected rest with
      | Some (tm, es) => Some (Nat.max t tm, e :: es)
      | None => None
      end
  | _ :: _ => None
  end.

(** [Promise.any(ps)], called at [now]. *)
Definition promise_any {A} (now : time) (ps : list (promise A)) : promise A :=
  match first_fulfilled ps with
  | Some (t, a) => resolve (resume now t) a
  | None =>
      match all_rejected ps with
      | Some (t, errors) => reject (resume now t) (VAggregateError errors)
      | None => None
      end
  end.

(** The earliest settlement of a list of promises. *)
Fixpoint first_settled {A} (ps : list (promise A)) : option (time * settlement A) :=
  match ps with
  | [] => None
  | p :: rest =>
      match p, first_settled rest with
      | Some (t, r), Some (t', r') => if t <=? t' then Some (t, r) else Some (t', r')
      | Some (t, r), None => Some (t, r)
      | None, r => r
      end
  end.

(** [Promise.race(ps)], called at [now]. *)
Definition promise_race {A} (now : time) (ps : list (promise A)) : promise A :=
  match first_settled ps with
  | Some (t, r) => Some (resume now t, r)
  | None => None
  end.

(** A promise has not settled by the instant [t]. *)
Definition pending_at {A} (p : promise A) (t : time) : Prop :=
  match p with
  | None => True
  | Some (t', _) => t < t'
  end.

(** What a call of a function that is not [async] gives back. *)
Inductive completion (A : Type) :=
| Throws (e : value)
| Returns (a : A).

Arguments Throws {A} e.

End Promise.
Export Promise.

(** ** Abort signals *)

Module Signal.

(** An [AbortSignal]: the instant it aborts and its reason, if it ever does. *)
Record AbortSignal := { firing : option (time * value) }.


(** [signal.throwIfAborted()] at [now]: the reason thrown, if any. *)
Definition throwIfAborted (s : AbortSignal) (now : time) : option value :=
  match firing s with
  | Some (t, reason) => if t <=? now then Some reason else None
  | None => None
  end.

(** [AbortSignal.timeout(ms)], created at [now]. *)
Definition AbortSignal_timeout (now : time) (ms : N) : AbortSignal :=
  {| firing := Some (now + N.to_nat ms, VDOMException (js "TimeoutError")) |}.

(** The earlier of two firings; the first argument wins a tie. *)
Definition earlier (a b : option (time * value)) : option (time * value) :=
  match a, b with
  | Some (t, r), Some (t', r') => if t <=? t' then Some (t, r) else Some (t', r')
  | Some x, None => Some x
  | None, y => y
  end.

(** [AbortSignal.any(signals)]: aborts with the first source that aborts. *)
Definition AbortSignal_any (signals : list AbortSignal) : AbortSignal :=
  {| firing := fold_right (fun s acc => earlier (firing s) acc) None signals |}.

End Signal.
Export Signal.

(** ** Options, configuration and the transports *)

(** An object property: absent, or present with a value that may be
    [undefined]. *)
Definition property (A : Type) := option (option A).

(** The value read from a property; [None] is [undefined]. *)
Definition read {A} (p : property A) : option A :=
  match p with
  | Some v => v
  | None => None
  end.

Record Options := {
  timeout : property N;
  signal : property AbortSignal;
  onlyHttps : property bool;
  fallbackUrls : property (list jsstring);
}.

(** [{...defaults, ...options}]: a property of [options] wins when present. *)
Definition spread {A} (d o : property A) : property A :=
  match o with
  | Some v => Some v
  | None => d
  end.

Definition merge (defaults options : Options) : Options :=
  {| timeout := spread (timeout defaults) (timeout options);
     signal := spread (signal defaults) (signal options);
     onlyHttps := spread (onlyHttps defaults) (onlyHttps options);
     fallbackUrls := spread (fallbackUrls defaults) (fallbackUrls options) |}.

(** The empty options object [{}]. *)
Definition no_options : Options :=
  {| timeout := None; signal := None; onlyHttps := None; fallbackUrls := None |}.

(** One entry [serverConfig[version]] of [dnsServers]: [{servers, ...question}]. *)
Record Question := {
  name : jsstring;
  type : jsstring;
  transform : option (jsstring -> option jsstring);
}.

Record ServerEntry := {
  servers : list jsstring;
  question : Question;
}.

(** [constants.js] is not among the sources: its tables are parameters. *)
Record Constants := {
  dnsServers : list (family -> ServerEntry);
  httpsUrls : family -> list jsstring;
  defaults : Options;
}.

(** The [data] of a DNS answer: a string, or an object with [toString()]. *)
Inductive DnsData :=
| DataString (s : jsstring)
| DataObject (toString : jsstring).

Record DnsResponse := { answers : list DnsData }.

Record Response := {
  ok : bool;
  status : N;
  statusText : jsstring;
  text : time -> promise jsstring;     (* response.text(), called at an instant *)
}.

Inductive socketType := udp4 | udp6.

(** The transports: what [fetch] and the DNS socket answer when called at
    an instant. *)
Record World := {
  fetch : jsstring -> option AbortSignal -> time -> promise Response;
  socketQuery : socketType -> jsstring -> jsstring -> jsstring -> time -> promise DnsResponse;
}.

(** A transport request issued by the program. *)
Inductive call :=
| CallDns (socket : socketType) (server name type : jsstring)
| CallFetch (url : jsstring) (signal : option AbortSignal).

(** A started operation: its promise and the transport requests it issued. *)
Record Run := {
  result : promise jsstring;
  calls : list call;
}.

(** A call of an entry point: what it gives back and what it issued. *)
Record Invocation := {
  outcome : completion (promise jsstring);
  issued : list call;
}.

(** ** utils.js: the cancellation envelope *)

(** A timeout is truthy when it is a number other than zero. *)
Definition truthy_timeout (timeout : option N) : option N :=
  match timeout with
  | Some ms => if (ms =? 0)%N then None else Some ms
  | None => None
  end.

Definition to_list {A} (o : option A) : list A :=
  match o with
  | Some a => [a]
  | None => []
  end.

(** [createAbortSignal(timeout, signal)], called at [now]. *)
Definition createAbortSignal (timeout : option N) (signal : option AbortSignal)
    (now : time) : completion (option AbortSignal) :=
  match match signal with Some s => throwIfAborted s now | None => None end with
  | Some reason => Throws reason                         (* signal.throwIfAborted() *)
  | None =>
      match truthy_timeout timeout, signal with
      | None, None => Returns None                       (* !timeout && !signal *)
      | _, _ =>
          let signals :=
            to_list (option_map (AbortSignal_timeout now) (truthy_timeout timeout))
            ++ to_list signal in
          Returns (Some match signals with
                        | [s] => s
                        | _ => AbortSignal_any signals
                        end)
      end
  end.

(** The promise that rejects with [abortSignal.reason] on the [abort] event. *)
Definition abortPromise (abortSignal : AbortSignal) : promise jsstring :=
  match firing abortSignal with
  | Some (t, reason) => reject t reason
  | None => None
  end.

(** [withAbortSignal(promise, abortSignal)], an async function called at
    [now]. *)
Definition withAbortSignal (p : promise jsstring) (abortSignal : option AbortSignal)
    (now : time) : promise jsstring :=
  match abortSignal with
  | None => adopt now p
  | Some s =>
      match throwIfAborted s now with
      | Some reason => reject now reason
      | None => adopt now (promise_race now [p; abortPromise s])
      end
  end.

(** ** query.js and index.js: the races *)

(** [errors.at?.(-1) ?? error] with [errors = error.errors ?? []]. *)
Definition errors_of (error : value) : list value :=
  match error with
  | VAggregateError errors => errors
  | _ => []
  end.

Definition lastError (error : value) : value :=
  match last (map Some (errors_of error)) None with
  | Some e => if nullish e then error else e
  | None => error
  end.

(** The [catch] block shared by [queryHttps] and [queryDns]. *)
Definition race (now : time) (candidates : list (promise jsstring)) : promise jsstring :=
  try_await now (promise_any now candidates)
    (fun t ip => resolve t ip)
    (fun t error => reject t (IpNotFoundError (lastError error))).

(** [new Error(`HTTP ${response.status}: ${response.statusText}`)] *)
Definition http_error (response : Response) : value :=
  VError (js "HTTP " ++ js (NilEmpty.string_of_uint (N.to_uint (status response)))
          ++ js ": " ++ statusText response).

Definition invalid_ip : value := VError (js "Invalid IP").

Section Pipeline.

Variable k : Constants.
Variable w : World.

(** One element of [requests] in [queryHttps]: the async callback applied to
    [url] at [now]. *)
Definition request (version : family) (abortSignal : option AbortSignal)
    (now : time) (url : jsstring) : promise jsstring :=
  await now (fetch w url abortSignal now) (fun t1 response =>
    if negb (ok response) then reject t1 (http_error response)
    else
      await t1 (text response t1) (fun t2 responseText =>
        let ip := trim responseText in
        if validateIp ip (tag version) then resolve t2 ip
        else reject t2 invalid_ip)).

(** [[...urls, ...(options.fallbackUrls ?? [])]] *)
Definition urlList (urls : list jsstring) (options : Options) : list jsstring :=
  urls ++ match read (fallbackUrls options) with
          | Some extra => extra
          | None => []
          end.

(** [queryHttps(version, urls, options, abortSignal)], called at [now]. *)
Definition queryHttps (version : family) (urls : list jsstring) (options : Options)
    (abortSignal : option AbortSignal) (now : time) : Run :=
  let requests := map (request version abortSignal now) (urlList urls options) in
  {| result := race now requests;
     calls := map (fun url => CallFetch url abortSignal) (urlList urls options) |}.

Definition socket_of (version : family) : socketType :=
  match version with
  | v6 => udp6
  | v4 => udp4
  end.

(** [typeof data === 'string' ? data : data.toString()] *)
Definition data_text (data : DnsData) : jsstring :=
  match data with
  | DataString s => s
  | DataObject s => s
  end.

(** [transform?.(response) ?? response] *)
Definition transformed (transform : option (jsstring -> option jsstring))
    (response : jsstring) : jsstring :=
  match transform with
  | Some f => match f response with
              | Some ip => ip
              | None => response
              end
  | None => response
  end.

Definition no_answer : value :=
  VTypeError
    (js "Cannot destructure property 'data' of 'dnsResponse.answers[0]' as it is undefined.").

(** [createDnsQuery(server, version, {name, type, transform})], called at
    [now].  The [finally] block destroys the socket and changes nothing of
    the outcome. *)
Definition createDnsQuery (server : jsstring) (version : family) (q : Question)
    (now : time) : promise jsstring :=
  await now (socketQuery w (socket_of version) server (name q) (type q) now)
    (fun t dnsResponse =>
       match answers dnsResponse with
       | [] => reject t no_answer
       | data :: _ =>
           let response := trim (data_text data) in
           let ip := transformed (transform q) response in
           if validateIp ip (tag version) then resolve t ip
           else reject t invalid_ip
       end).

(** The targets of [queryDns]: every server of every entry, in order. *)
Definition dnsTargets (version : family) : list (jsstring * Question) :=
  flat_map (fun serverConfig =>
              let entry := serverConfig version in
              map (fun server => (server, question entry)) (servers entry))
           (dnsServers k).

(** [queryDns(version)], called at [now]. *)
Definition queryDns (version : family) (now : time) : Run :=
  let queries :=
    map (fun target => createDnsQuery (fst target) version (snd target) now)
        (dnsTargets version) in
  {| result := race now queries;
     calls := map (fun target =>
                     CallDns (socket_of version) (fst target)
                             (name (snd target)) (type (snd target)))
                  (dnsTargets version) |}.

(** [queryAll(version, options, abortSignal)], called at [now]. *)
Definition queryAll (version : family) (options : Options)
    (abortSignal : option AbortSignal) (now : time) : Run :=
  let dns := queryDns version now in
  match result dns with
  | None => {| result := None; calls := calls dns |}
  | Some (t, Fulfilled ip) =>
      {| result := resolve (resume now t) ip; calls := calls dns |}
  | Some (t, Rejected _) =>
      let https := queryHttps version (httpsUrls k version) options abortSignal
                              (resume now t) in
      {| result := adopt (resume now t) (result https);
         calls := calls dns ++ calls https |}
  end.

(** [options.onlyHttps] as a condition. *)
Definition wants_onlyHttps (options : Options) : bool :=
  match read (onlyHttps options) with
  | Some b => b
  | None => false
  end.

(** [nodeQueryFunction(version, options, abortSignal)], called at [now]. *)
Definition nodeQueryFunction (version : family) (options : Options)
    (abortSignal : option AbortSignal) (now : time) : Run :=
  if wants_onlyHttps options
  then queryHttps version (httpsUrls k version) options abortSignal now
  else queryAll version options abortSignal now.

(** [createQuery(version, queryFunction, options)], called at [now]. *)
Definition createQuery (version : family)
    (queryFunction : option AbortSignal -> time -> Run)
    (options : Options) (now : time) : Invocation :=
  match createAbortSignal (read (timeout options)) (read (signal options)) now with
  | Throws e => {| outcome := Throws e; issued := [] |}
  | Returns abortSignal =>
      let query := queryFunction abortSignal now in
      {| outcome := Returns (withAbortSignal (result query) abortSignal now);
         issued := calls query |}
  end.

(** shared.js: [createIpFunction(version, queryFunction)(options)]. *)
Definition createIpFunction (version : family)
    (queryFunction : family -> Options -> option AbortSignal -> time -> Run)
    (options : Options) (now : time) : Invocation :=
  let mergedOptions := merge (defaults k) options in
  createQuery version
    (fun abortSignal => queryFunction version mergedOptions abortSignal)
    mergedOptions now.

Definition publicIpv4 : Options -> time -> Invocation :=
  createIpFunction v4 nodeQueryFunction.

Definition publicIpv6 : Options -> time -> Invocation :=
  createIpFunction v6 nodeQueryFunction.

End Pipeline.

(** ** The dual-family entry point *)

(** Modelled from the spec: [core.js], which defines [createPublicIp], is not
    among the sources.  The v4 and the v6 pipeline are launched together
    under the same options; the first one that produces a valid IP is
    returned; if both fail, the failure of the family that failed first is
    surfaced. *)
Definition either_family (now : time) (p4 p6 : promise jsstring) : promise jsstring :=
  match first_fulfilled [p4; p6] with
  | Some (t, ip) => resolve (resume now t) ip
  | None =>
      match p4, p6 with
      | Some (t4, Rejected e4), Some (t6, Rejected e6) =>
          reject (resume now (Nat.max t4 t6)) (if t4 <=? t6 then e4 else e6)
      | _, _ => None
      end
  end.

(** Modelled from the spec: [createPublicIp(publicIpv4, publicIpv6)(options)],
    called at [now]; see [either_family]. *)
Definition createPublicIp (publicIpv4 publicIpv6 : Options -> time -> Invocation)
    (options : Options) (now : time) : Invocation :=
  let a := publicIpv4 options now in
  match outcome a with
  | Throws e => {| outcome := Throws e; issued := issued a |}
  | Returns p4 =>
      let b := publicIpv6 options now in
      match outcome b with
      | Throws e => {| outcome := Throws e; issued := issued a ++ issued b |}
      | Returns p6 =>
          {| outcome := Returns (either_family now p4 p6);
             issued := issued a ++ issued b |}
      end
  end.

Definition publicIp (k : Constants) (w : World) : Options -> time -> Invocation :=
  createPublicIp (publicIpv4 k w) (publicIpv6 k w).

(** ** The spec's reading of the representative cause *)

(** The most recently observed failure of a list of candidates: the rejection
    with the greatest instant (the later position on equal instants). *)
Fixpoint last_observed {A} (ps : list (promise A)) : option (time * value) :=
  match ps with
  | [] => None
  | p :: rest =>
      match p, last_observed rest with
      | Some (t, Rejected e), Some (t', e') =>
          if t' <? t then Some (t, e) else Some (t', e')
      | Some (t, Rejected e), None => Some (t, e)
      | _, r => r
      end
  end.

(** The failure causes of a list of candidates that all failed, by position. *)
Definition failures {A} (ps : list (promise A)) (errors : list value) : Prop :=
  Forall2 (fun p e => exists t, p = Some (t, Rejected e)) ps errors.

(** The cause by position: the failure of the last candidate of the list,
    or the aggregate itself when there is no candidate or that failure is
    [null] or [undefined]. *)
Definition positional_cause (errors : list value) : value :=
  match rev errors with
  | e :: _ => if nullish e then VAggregateError errors else e
  | [] => VAggregateError errors
  end.

(** ** Alphabets of the literals *)

(** The digits and the dot. *)
Definition v4_alphabet (c : unit16) : bool :=
  ((48 <=? c) && (c <=? 57) || (c =? 46))%N.

Definition not_space (c : unit16) : bool := negb (is_space c).

(** ** Worlds and tables used in the examples *)

Module Examples.

Definition icanhazip : jsstring := js "https://icanhazip.com/".
Definition ipify : jsstring := js "https://api.ipify.org/".
Definition ifconfig : jsstring := js "https://ifconfig.co/ip".

(** The transform of a TXT answer: every double quote (code unit 34) is
    removed. *)
Definition stripQuotes (s : jsstring) : option jsstring :=
  Some (filter (fun c => negb (c =? 34)%N) s).

Definition opendns : family -> ServerEntry := fun version =>
  match version with
  | v4 => {| servers := [js "208.67.222.222"; js "208.67.220.220"];
             question := {| name := js "myip.opendns.com"; type := js "A";
                            transform := None |} |}
  | v6 => {| servers := [js "2620:0:ccc::2"];
             question := {| name := js "myip.opendns.com"; type := js "AAAA";
                            transform := None |} |}
  end.

Definition google : family -> ServerEntry := fun version =>
  {| servers := [js "216.239.32.10"];
     question := {| name := js "o-o.myaddr.l.google.com"; type := js "TXT";
                    transform := Some stripQuotes |} |}.

Definition constants : Constants :=
  {| dnsServers := [opendns; google];
     httpsUrls := fun version =>
       match version with
       | v4 => [icanhazip; ipify]
       | v6 => [icanhazip; js "https://api6.ipify.org/"]
       end;
     defaults := {| timeout := None; signal := None;
                    onlyHttps := Some (Some false); fallbackUrls := None |} |}.

(** A successful response whose body arrives [delay] instants later. *)
Definition body (delay : nat) (s : jsstring) : Response :=
  {| ok := true; status := 200; statusText := js "OK";
     text := fun t => resolve (t + delay) s |}.

Definition network_error : value := VError (js "Mocked network error").
Definition dns_error : value := VError (js "DNS record not found").

(** Every DNS query fails after 2 instants. *)
Definition dns_down : socketType -> jsstring -> jsstring -> jsstring -> time ->
                      promise DnsResponse :=
  fun _ _ _ _ t => reject (t + 2) dns_error.

(** [icanhazip] fails late with a network error, [ipify] answers early with
    text that is no IP literal. *)
Definition w_late_failure : World :=
  {| fetch := fun url _ t =>
       if JsString.eqb url icanhazip then reject (t + 50) network_error
       else resolve (t + 10) (body 1 (js "also-invalid"));
     socketQuery := dns_down |}.

(** DNS is down; the built-in URLs fail; [ifconfig] answers a padded
    literal. *)
Definition w_fallback : World :=
  {| fetch := fun url _ t =>
       if JsString.eqb url ifconfig
       then resolve (t + 7) (body 1 (32 :: js "192.168.1.1" ++ [10]))%N
       else reject (t + 3) network_error;
     socketQuery := dns_down |}.

(** Both built-in URLs answer a literal, [ipify] first. *)
Definition w_https_up : World :=
  {| fetch := fun url _ t =>
       if JsString.eqb url icanhazip then resolve (t + 8) (body 1 (js "203.0.113.10"))
       else resolve (t + 4) (body 1 (js "203.0.113.11"));
     socketQuery := dns_down |}.


(** The OpenDNS servers answer an A record; the TXT server answers a quoted
    literal surrounded by blanks. *)
Definition w_dns_up : World :=
  {| fetch := fun _ _ t => reject (t + 3) network_error;
     socketQuery := fun _ server _ type t =>
       if JsString.eqb type (js "TXT")
       then resolve (t + 4)
              {| answers := [DataObject (32 :: 34 :: js "203.0.113.20" ++ [34; 32])%N] |}
       else if JsString.eqb server (js "208.67.222.222") then reject (t + 1) dns_error
       else resolve (t + 6) {| answers := [DataString (js "203.0.113.10" ++ [10])%N] |} |}.

Definition controller_abort (t : time) : AbortSignal :=
  {| firing := Some (t, VError (js "Operation timed out")) |}.

End Examples.

(** ** browser.js *)

(** [browserQueryFunction(version, options, abortSignal)], called at [now];
    [browserUrls] is a table of [constants.js]. *)
Definition browserQueryFunction (browserUrls : family -> list jsstring) (w : World)
    (version : family) (options : Options) (abortSignal : option AbortSignal)
    (now : time) : Run :=
  queryHttps w version (browserUrls version) options abortSignal now.

(** The firing of the timeout trigger and of the caller's trigger, as
    [createAbortSignal] receives them at [now]. *)
Definition timeout_firing (timeout : option N) (now : time) : option (time * value) :=
  match truthy_timeout timeout with
  | Some ms => firing (AbortSignal_timeout now ms)
  | None => None
  end.

Definition signal_firing (signal : option AbortSignal) : option (time * value) :=
  match signal with
  | Some s => firing s
  | None => None
  end.

(** ** Further worlds *)

Module Scenarios.

Import Examples.

(** [icanhazip] answers 503 with a body that never arrives; [ipify] never
    answers at all. *)
Definition w_unavailable : World :=
  {| fetch := fun url _ t =>
       if JsString.eqb url icanhazip
       then resolve (t + 2)
              {| ok := false; status := 503; statusText := js "Service Unavailable";
                 text := fun _ => None |}
       else None;
     socketQuery := dns_down |}.

(** The first OpenDNS server answers without any answer record, the second
    never answers, the TXT server fails. *)
Definition w_dns_silent : World :=
  {| fetch := fun _ _ t => resolve (t + 3) (body 1 (js "203.0.113.10"));
     socketQuery := fun _ server _ type t =>
       if JsString.eqb type (js "TXT") then reject (t + 1) dns_error
       else if JsString.eqb server (js "208.67.222.222")
            then resolve (t + 2) {| answers := [] |}
            else None |}.

(** DNS fails late, at instant 9 after the call. *)
Definition w_dns_slow : World :=
  {| fetch := fun _ _ t => resolve (t + 3) (body 1 (js "203.0.113.10"));
     socketQuery := fun _ _ _ _ t => reject (t + 9) dns_error |}.

Definition with_timeout (ms : N) : Options :=
  {| timeout := Some (Some ms); signal := None; onlyHttps := None; fallbackUrls := None |}.

Definition only_https : Options :=
  {| timeout := None; signal := None; onlyHttps := Some (Some true); fallbackUrls := None |}.

End Scenarios.

(** * Theorems *)

Import Examples.

Unset Implicit Arguments.


(** ** The validator on the literals of the test suite *)

Example accepts_ipv4 : validateIp (js "203.0.113.10") (tag v4) = true.
Proof. vm_compute. reflexivity. Qed.

Example accepts_ipv6 : validateIp (js "2001:db8::1") (tag v6) = true.
Proof. vm_compute. reflexivity. Qed.

Example accepts_mapped_with_zone : validateIp (js "::ffff:1.2.3.4%eth0") (tag v6) = true.
Proof. vm_compute. reflexivity. Qed.

Example refuses_text : validateIp (js "invalid-ip-address") (tag v4) = false.
Proof. vm_compute. reflexivity. Qed.

Example refuses_leading_zero : validateIp (js "01.1.1.1") (tag v4) = false.
Proof. vm_compute. reflexivity. Qed.

Example refuses_large_octet : validateIp (js "256.1.1.1") (tag v4) = false.
Proof. vm_compute. reflexivity. Qed.

Example refuses_nine_groups : validateIp (js "1:2:3:4:5:6:7:8:9") (tag v6) = false.
Proof. vm_compute. reflexivity. Qed.

Example refuses_padded : validateIp (js " 203.0.113.10") (tag v4) = false.
Proof. vm_compute. reflexivity. Qed.

Example trims_newline : trim (js "203.0.113.10" ++ [10; 13; 32])%N = js "203.0.113.10".
Proof. vm_compute. reflexivity. Qed.

(** ** Regular expressions: what a match tells about the word *)

Section RegexFacts.

Lemma void_seq a b : void (seq a b) = void a || void b.
Proof.
  unfold seq. destruct (void a || void b) eqn:E; [reflexivity|].
  destruct a; simpl in *; auto.
Qed.

Lemma void_alt a b : void (alt a b) = void a && void b.
Proof.
  unfold alt. destruct (void a) eqn:Ea; simpl; [reflexivity|].
  destruct (void b) eqn:Eb; simpl; rewrite ?Ea, ?Eb; reflexivity.
Qed.

Lemma void_not_nullable r : void r = true -> nullable r = false.
Proof.
  induction r; simpl; intros H; try discriminate; auto.
  - apply orb_true_iff in H as [H|H];
      [rewrite (IHr1 H) | rewrite (IHr2 H), andb_false_r]; reflexivity.
  - apply andb_true_iff in H as [H1 H2]. now rewrite IHr1, IHr2.
Qed.

Lemma void_deriv c r : void r = true -> void (deriv c r) = true.
Proof.
  induction r; simpl; intros H; try discriminate; auto.
  - apply orb_true_iff in H as [H|H].
    + rewrite (void_not_nullable _ H), void_seq, (IHr1 H). reflexivity.
    + destruct (nullable r1);
        rewrite ?void_alt, void_seq, ?(IHr2 H), H, orb_true_r; reflexivity.
  - apply andb_true_iff in H as [H1 H2]. now rewrite void_alt, IHr1, IHr2.
Qed.

Lemma void_matches s : forall r, void r = true -> matches r s = false.
Proof.
  induction s as [|c s IH]; simpl; intros r H.
  - now apply void_not_nullable.
  - apply IH, void_deriv, H.
Qed.

Variable P : unit16 -> bool.

Lemma class_within_in cls c :
  class_within P cls = true -> in_class cls c = true -> P c = true.
Proof.
  unfold class_within, in_class. intros Hw Hin.
  apply existsb_exists in Hin as [[lo hi] [Hr Hc]]. simpl in Hc.
  rewrite forallb_forall in Hw. specialize (Hw _ Hr). cbn [fst snd] in Hw.
  apply andb_true_iff in Hc as [Hlo Hhi].
  apply N.leb_le in Hlo, Hhi.
  apply orb_true_iff in Hw as [Hw|Hw]; [|apply N.ltb_lt in Hw; lia].
  rewrite forallb_forall in Hw.
  specialize (Hw (N.to_nat (c - lo))).
  replace (lo + N.of_nat (N.to_nat (c - lo)))%N with c in Hw by lia.
  apply Hw, in_seq. lia.
Qed.

Lemma within_seq a b :
  within P a = true -> within P b = true -> within P (seq a b) = true.
Proof.
  intros Ha Hb. unfold seq. destruct (void a || void b); [reflexivity|].
  destruct a; simpl in *; auto; now rewrite ?Ha, ?Hb.
Qed.

Lemma within_alt a b :
  within P a = true -> within P b = true -> within P (alt a b) = true.
Proof.
  intros Ha Hb. unfold alt. destruct (void a); [assumption|].
  destruct (void b); [assumption|]. simpl. now rewrite Ha, Hb.
Qed.

Lemma within_deriv c r : within P r = true -> within P (deriv c r) = true.
Proof.
  induction r; simpl; intros H; auto.
  - now destruct (in_class cls c).
  - apply andb_true_iff in H as [H1 H2].
    destruct (nullable r1); [apply within_alt|]; auto using within_seq.
  - apply andb_true_iff in H as [H1 H2]. auto using within_alt.
  - apply within_seq; auto.
Qed.

Lemma outside_void c r :
  within P r = true -> P c = false -> void (deriv c r) = true.
Proof.
  intros H Hc. induction r; simpl in *; auto.
  - destruct (in_class cls c) eqn:E; [|reflexivity].
    rewrite (class_within_in _ _ H E) in Hc. discriminate.
  - apply andb_true_iff in H as [H1 H2].
    destruct (nullable r1);
      rewrite ?void_alt, void_seq, (IHr1 H1), ?(IHr2 H2); reflexivity.
  - apply andb_true_iff in H as [H1 H2]. now rewrite void_alt, IHr1, IHr2.
  - now rewrite void_seq, IHr.
Qed.

(** A word matched by [r] is made of code units of [P] only. *)
Lemma within_matches s :
  forall r, within P r = true -> matches r s = true -> forallb P s = true.
Proof.
  induction s as [|c s IH]; simpl; intros r Hw Hm; [reflexivity|].
  destruct (P c) eqn:Hc; simpl.
  - eapply IH; [apply within_deriv, Hw | exact Hm].
  - rewrite void_matches in Hm by (apply outside_void; assumption).
    discriminate.
Qed.

End RegexFacts.

Lemma must_not_nullable c r : must c r = true -> nullable r = false.
Proof.
  induction r; simpl; intros H; try discriminate; auto.
  - apply orb_true_iff in H as [H|H];
      [rewrite (IHr1 H) | rewrite (IHr2 H), andb_false_r]; reflexivity.
  - apply andb_true_iff in H as [H1 H2]. now rewrite IHr1, IHr2.
Qed.

Lemma must_seq c a b : must c a || must c b = true -> must c (seq a b) = true.
Proof.
  intros H. unfold seq. destruct (void a || void b); [reflexivity|].
  destruct a; simpl in *; auto.
Qed.

Lemma must_alt c a b : must c a = true -> must c b = true -> must c (alt a b) = true.
Proof.
  intros Ha Hb. unfold alt. destruct (void a); [assumption|].
  destruct (void b); [assumption|]. simpl. now rewrite Ha, Hb.
Qed.

Lemma must_class c cls a :
  forallb (fun r => (fst r =? c)%N && (snd r =? c)%N) cls = true ->
  in_class cls a = true -> a = c.
Proof.
  unfold in_class. intros Hall Hin.
  apply existsb_exists in Hin as [[lo hi] [Hr Ha]].
  rewrite forallb_forall in Hall. specialize (Hall _ Hr). simpl in *.
  apply andb_true_iff in Hall as [H1 H2], Ha as [H3 H4].
  apply N.eqb_eq in H1, H2. apply N.leb_le in H3, H4. lia.
Qed.

Lemma must_deriv c a r : a <> c -> must c r = true -> must c (deriv a r) = true.
Proof.
  intros Hne. induction r; simpl; intros H; try discriminate; auto.
  - destruct (in_class cls a) eqn:E; [|reflexivity].
    elim Hne. eapply must_class; eassumption.
  - destruct (nullable r1) eqn:Hn.
    + apply orb_true_iff in H as [H|H].
      * rewrite (must_not_nullable _ _ H) in Hn. discriminate.
      * apply must_alt; [apply must_seq; rewrite H; apply orb_true_r | auto].
    + apply must_seq. apply orb_true_iff in H as [H|H];
        [rewrite (IHr1 H) | rewrite H, orb_true_r]; reflexivity.
  - apply andb_true_iff in H as [H1 H2]. apply must_alt; auto.
Qed.

(** A word matched by [r] holds the code unit that [r] must hold. *)
Lemma must_matches c s :
  forall r, must c r = true -> matches r s = true -> In c s.
Proof.
  induction s as [|a s IH]; simpl; intros r Hm Hs.
  - rewrite (must_not_nullable _ _ Hm) in Hs. discriminate.
  - destruct (N.eq_dec a c) as [->|Hne]; [now left|].
    right. eapply IH; [apply must_deriv; eassumption | exact Hs].
Qed.

(** ** The IP validator *)

Lemma isIPv4_alphabet s : isIPv4 s = true -> forallb v4_alphabet s = true.
Proof. apply within_matches. vm_compute. reflexivity. Qed.

Lemma isIPv6_colon s : isIPv6 s = true -> In 58%N s.
Proof. apply must_matches. vm_compute. reflexivity. Qed.

Lemma isIPv4_not_isIPv6 s : isIPv4 s = true -> isIPv6 s = false.
Proof.
  intros H4. destruct (isIPv6 s) eqn:H6; [|reflexivity].
  apply isIPv4_alphabet in H4. apply isIPv6_colon in H6.
  rewrite forallb_forall in H4. specialize (H4 _ H6). discriminate.
Qed.

Lemma isIPv4_nonempty s : isIPv4 s = true -> s <> [].
Proof. intros H ->. discriminate. Qed.

Lemma isIPv6_nonempty s : isIPv6 s = true -> s <> [].
Proof. intros H ->. discriminate. Qed.

Lemma is_v6_tag version : is_v6 (tag version) = match version with v6 => true | v4 => false end.
Proof. destruct version; reflexivity. Qed.

Lemma validateIp_true ip version :
  validateIp ip version = true ->
  ip <> [] /\ (if is_v6 version then isIPv6 ip else isIPv4 ip) = true.
Proof.
  unfold validateIp. destruct ip; [discriminate|]. intros H. split; [discriminate|exact H].
Qed.

Lemma validateIp_nonempty ip version :
  ip <> [] -> validateIp ip version = if is_v6 version then isIPv6 ip else isIPv4 ip.
Proof. destruct ip; [congruence|reflexivity]. Qed.

(** C7: the validator accepts [s] for a family only if [s] is not empty and
    is a literal of that family; a string that is an IPv4 literal is accepted
    for v4 and refused for v6, an IPv6 literal is accepted for v6 and refused
    for v4, and no string is accepted for both families. *)
Theorem validateIp_family_exclusive (s : jsstring) :
  (forall version, validateIp s version = true ->
     s <> [] /\ (if is_v6 version then isIPv6 s else isIPv4 s) = true)
  /\ (isIPv4 s = true ->
      validateIp s (tag v4) = true /\ validateIp s (tag v6) = false)
  /\ (isIPv6 s = true ->
      validateIp s (tag v6) = true /\ validateIp s (tag v4) = false)
  /\ ~ (validateIp s (tag v4) = true /\ validateIp s (tag v6) = true).
Proof.
  split; [intros version; apply validateIp_true|].
  assert (H46 : isIPv4 s = true -> validateIp s (tag v4) = true /\ validateIp s (tag v6) = false).
  { intros H. pose proof (isIPv4_nonempty _ H) as Hne.
    rewrite !validateIp_nonempty, !is_v6_tag by assumption.
    split; [exact H | apply isIPv4_not_isIPv6, H]. }
  split; [exact H46|]. split.
  - intros H. pose proof (isIPv6_nonempty _ H) as Hne.
    rewrite !validateIp_nonempty, !is_v6_tag by assumption.
    split; [exact H|].
    destruct (isIPv4 s) eqn:E; [|reflexivity].
    rewrite (isIPv4_not_isIPv6 _ E) in H. discriminate.
  - intros [H4 H6].
    apply validateIp_true in H4 as [_ H4]. rewrite is_v6_tag in H4.
    destruct (H46 H4) as [_ H]. congruence.
Qed.

(** The same at two literals: an IPv4 and an IPv6 one. *)
Lemma validateIp_family_exclusive_witness :
  (validateIp (js "203.0.113.10") (tag v4) = true
   /\ validateIp (js "203.0.113.10") (tag v6) = false)
  /\ (validateIp (js "2001:db8::1") (tag v6) = true
      /\ validateIp (js "2001:db8::1") (tag v4) = false).
Proof.
  split.
  - apply (proj1 (proj2 (validateIp_family_exclusive (js "203.0.113.10")))).
    vm_compute. reflexivity.
  - apply (proj1 (proj2 (proj2 (validateIp_family_exclusive (js "2001:db8::1"))))).
    vm_compute. reflexivity.
Defined.

Lemma is_v6_true f : is_v6 f = true -> f = VStr (js "v6").
Proof.
  destruct f; try discriminate. unfold is_v6, JsString.eqb.
  destruct (list_eq_dec N.eq_dec s (js "v6")); [congruence|discriminate].
Qed.

(** C10: any family argument other than the string ['v6'] asks for IPv4
    validation. *)
Theorem validateIp_defaults_to_v4 (s : jsstring) (f : value) :
  f <> VStr (js "v6") -> validateIp s f = validateIp s (VStr (js "v4")).
Proof.
  intros Hf. unfold validateIp. destruct s; [reflexivity|].
  assert (E : is_v6 f = false).
  { destruct (is_v6 f) eqn:E; [|reflexivity].
    elim Hf. apply is_v6_true, E. }
  rewrite E. reflexivity.
Qed.

Lemma validateIp_defaults_to_v4_witness :
  validateIp (js "203.0.113.10") VUndefined = validateIp (js "203.0.113.10") (VStr (js "v4"))
  /\ validateIp (js "203.0.113.10") VUndefined = true.
Proof.
  split.
  - apply (validateIp_defaults_to_v4 (js "203.0.113.10") VUndefined). discriminate.
  - vm_compute. reflexivity.
Defined.

(** ** Trimming *)

Lemma trimStart_spaces ws s :
  forallb is_space ws = true -> trimStart (ws ++ s) = trimStart s.
Proof.
  induction ws as [|c ws IH]; simpl; intros H; [reflexivity|].
  apply andb_true_iff in H as [Hc Hws]. rewrite Hc. auto.
Qed.

Lemma trimStart_solid s t :
  s <> [] -> forallb not_space s = true -> trimStart (s ++ t) = s ++ t.
Proof.
  destruct s as [|c s]; [congruence|]. simpl. unfold not_space at 1. intros _ H.
  apply andb_true_iff in H as [Hc _]. apply negb_true_iff in Hc.
  rewrite Hc. reflexivity.
Qed.

Lemma forallb_rev {A} (f : A -> bool) l : forallb f (rev l) = forallb f l.
Proof.
  induction l as [|a l IH]; simpl; [reflexivity|].
  rewrite forallb_app, IH. simpl. rewrite andb_true_r. apply andb_comm.
Qed.

(** Blanks around a word without blanks are removed, and nothing else. *)
Lemma trim_padded ws1 lit ws2 :
  forallb is_space ws1 = true -> forallb is_space ws2 = true ->
  lit <> [] -> forallb not_space lit = true ->
  trim (ws1 ++ lit ++ ws2) = lit.
Proof.
  intros H1 H2 Hne Hlit. unfold trim, trimEnd.
  rewrite trimStart_spaces, trimStart_solid by assumption.
  rewrite rev_app_distr, trimStart_spaces by (rewrite forallb_rev; assumption).
  rewrite <- (app_nil_r (rev lit)), trimStart_solid.
  - rewrite app_nil_r. apply rev_involutive.
  - intros E. apply Hne. rewrite <- (rev_involutive lit), E. reflexivity.
  - rewrite forallb_rev. assumption.
Qed.

(** An accepted literal is not empty and holds no blank. *)
Lemma validateIp_solid ip version :
  validateIp ip version = true -> ip <> [] /\ forallb not_space ip = true.
Proof.
  intros H. apply validateIp_true in H as [Hne H]. split; [assumption|].
  destruct (is_v6 version);
    (eapply within_matches; [|exact H]); vm_compute; reflexivity.
Qed.

Lemma trim_valid ip version : validateIp ip version = true -> trim ip = ip.
Proof.
  intros H. apply validateIp_solid in H as [Hne H].
  rewrite <- (app_nil_r ip) at 1. apply (trim_padded [] ip []); auto.
Qed.

(** ** The candidates *)

Section Candidates.

Variable w : World.
Variable version : family.

Lemma request_text abortSignal now url t1 response t2 raw :
  fetch w url abortSignal now = Some (t1, Fulfilled response) ->
  ok response = true ->
  text response (resume now t1) = Some (t2, Fulfilled raw) ->
  request w version abortSignal now url =
    if validateIp (trim raw) (tag version)
    then resolve (resume (resume now t1) t2) (trim raw)
    else reject (resume (resume now t1) t2) invalid_ip.
Proof.
  intros Hf Hok Ht. unfold request, await, try_await.
  rewrite Hf, Hok. simpl. rewrite Ht. reflexivity.
Qed.

Lemma createDnsQuery_answer server q now t data rest :
  socketQuery w (socket_of version) server (name q) (type q) now
    = Some (t, Fulfilled {| answers := data :: rest |}) ->
  createDnsQuery w server version q now =
    let ip := transformed (transform q) (trim (data_text data)) in
    if validateIp ip (tag version) then resolve (resume now t) ip
    else reject (resume now t) invalid_ip.
Proof.
  intros H. unfold createDnsQuery, await, try_await. rewrite H. reflexivity.
Qed.

(** A candidate only ever fulfils with a validated string. *)
Lemma request_fulfilled abortSignal now url t ip :
  request w version abortSignal now url = Some (t, Fulfilled ip) ->
  validateIp ip (tag version) = true.
Proof.
  unfold request, await, try_await, resolve, reject.
  destruct (fetch w url abortSignal now) as [[t1 [response|e]]|]; try discriminate.
  destruct (negb (ok response)); [discriminate|].
  destruct (text response (resume now t1)) as [[t2 [responseText|e]]|]; try discriminate.
  destruct (validateIp (trim responseText) (tag version)) eqn:E; [|discriminate].
  intros H. injection H as _ <-. exact E.
Qed.

Lemma createDnsQuery_fulfilled server q now t ip :
  createDnsQuery w server version q now = Some (t, Fulfilled ip) ->
  validateIp ip (tag version) = true.
Proof.
  unfold createDnsQuery, await, try_await, resolve, reject.
  destruct (socketQuery w (socket_of version) server (name q) (type q) now)
    as [[t1 [[[|data rest]]|e]]|]; try discriminate.
  simpl.
  destruct (validateIp (transformed (transform q) (trim (data_text data))) (tag version)) eqn:E;
    [|discriminate].
  intros H. injection H as _ <-. exact E.
Qed.

End Candidates.

(** The quote-stripping transform of the TXT entries leaves an accepted
    literal as it is. *)
Lemma stripQuotes_valid lit version :
  validateIp lit version = true -> transformed (Some stripQuotes) lit = lit.
Proof.
  intros H. apply validateIp_true in H as [_ H].
  assert (Hq : forallb (fun c => negb (c =? 34)%N) lit = true).
  { destruct (is_v6 version);
      (eapply within_matches; [|exact H]); vm_compute; reflexivity. }
  unfold transformed, stripQuotes. clear H.
  induction lit as [|c lit IH]; [reflexivity|]. simpl in *.
  apply andb_true_iff in Hq as [Hc Hq]. rewrite Hc, (IH Hq). reflexivity.
Qed.

(** C9: a response body or a DNS answer that is a valid literal surrounded
    by blanks makes its candidate fulfil with the literal itself, blanks
    removed.  For a DNS entry with a [transform], the transform is applied
    to the trimmed answer and has to leave the literal as it is. *)
Theorem lookup_results_are_trimmed
    (w : World) (version : family) (ws1 lit ws2 : jsstring) :
  forallb is_space ws1 = true ->
  forallb is_space ws2 = true ->
  validateIp lit (tag version) = true ->
  (forall abortSignal now url t1 response t2,
     fetch w url abortSignal now = Some (t1, Fulfilled response) ->
     ok response = true ->
     text response (resume now t1) = Some (t2, Fulfilled (ws1 ++ lit ++ ws2)) ->
     request w version abortSignal now url = resolve (resume (resume now t1) t2) lit)
  /\ (forall server q now t data rest,
     socketQuery w (socket_of version) server (name q) (type q) now
       = Some (t, Fulfilled {| answers := data :: rest |}) ->
     data_text data = ws1 ++ lit ++ ws2 ->
     transformed (transform q) lit = lit ->
     createDnsQuery w server version q now = resolve (resume now t) lit).
Proof.
  intros H1 H2 Hv.
  destruct (validateIp_solid _ _ Hv) as [Hne Hs].
  pose proof (trim_padded ws1 lit ws2 H1 H2 Hne Hs) as Ht.
  split.
  - intros abortSignal now url t1 response t2 Hf Hok Htx.
    rewrite (request_text w version _ _ _ _ _ _ _ Hf Hok Htx), Ht, Hv. reflexivity.
  - intros server q now t data rest Hq Hd Htr.
    rewrite (createDnsQuery_answer w version _ _ _ _ _ _ Hq). cbv zeta.
    rewrite Hd, Ht, Htr, Hv. reflexivity.
Qed.

Lemma lookup_results_are_trimmed_witness :
  request w_fallback v4 None 0 ifconfig = resolve 10 (js "192.168.1.1")
  /\ createDnsQuery w_dns_up (js "208.67.220.220") v4 (question (opendns v4)) 0
     = resolve 7 (js "203.0.113.10").
Proof.
  split.
  - refine (proj1 (lookup_results_are_trimmed w_fallback v4 [32%N] (js "192.168.1.1") [10%N]
                     _ _ _) None 0 ifconfig 7 (body 1 (32 :: js "192.168.1.1" ++ [10])%N) 9 _ _ _);
      vm_compute; reflexivity.
  - refine (proj2 (lookup_results_are_trimmed w_dns_up v4 [] (js "203.0.113.10") [10%N]
                     _ _ _) (js "208.67.220.220") (question (opendns v4)) 0 6
                  (DataString (js "203.0.113.10" ++ [10])%N) [] _ _ _);
      vm_compute; reflexivity.
Defined.

(** ** [Promise.any] and the shared [catch] block *)

Section AnyFacts.

Context {A : Type}.

(** The earliest fulfilment is one of the list and no other is earlier. *)
Lemma first_fulfilled_sound (ps : list (promise A)) t a :
  first_fulfilled ps = Some (t, a) ->
  In (Some (t, Fulfilled a)) ps
  /\ forall t' a', In (Some (t', Fulfilled a')) ps -> t <= t'.
Proof.
  revert t a. induction ps as [|p ps IH]; simpl; intros t a H; [discriminate|].
  destruct p as [[tp [ap|e]]|].
  - destruct (first_fulfilled ps) as [[tr ar]|] eqn:E.
    + destruct (IH _ _ eq_refl) as [Hin Hmin].
      destruct (tp <=? tr) eqn:Hle; injection H as <- <-.
      * apply Nat.leb_le in Hle. split; [now left|].
        intros t' a' [Heq|Hin']; [injection Heq as <- _; lia|].
        specialize (Hmin _ _ Hin'). lia.
      * apply Nat.leb_gt in Hle. split; [now right|].
        intros t' a' [Heq|Hin']; [injection Heq as <- _; lia|]. eauto.
    + injection H as <- <-. split; [now left|].
      intros t' a' [Heq|Hin']; [injection Heq as <- _; lia|].
      exfalso. clear IH. induction ps as [|q qs IHq]; [easy|].
      simpl in E. destruct Hin' as [->|Hin'].
      * destruct (first_fulfilled qs) as [[? ?]|]; [destruct (t' <=? _)|]; discriminate.
      * apply IHq; [|assumption].
        destruct q as [[tq [aq|eq]]|]; auto.
        destruct (first_fulfilled qs) as [[? ?]|]; [destruct (tq <=? _)|]; discriminate.
  - destruct (IH _ _ H) as [Hin Hmin]. split; [now right|].
    intros t' a' [Heq|Hin']; [discriminate|eauto].
  - destruct (IH _ _ H) as [Hin Hmin]. split; [now right|].
    intros t' a' [Heq|Hin']; [discriminate|eauto].
Qed.

(** As soon as one promise of the list fulfils, there is an earliest one. *)
Lemma first_fulfilled_complete (ps : list (promise A)) t a :
  In (Some (t, Fulfilled a)) ps ->
  exists t' a', first_fulfilled ps = Some (t', a') /\ t' <= t.
Proof.
  induction ps as [|p ps IH]; simpl; [easy|]. intros [->|Hin].
  - destruct (first_fulfilled ps) as [[tr ar]|].
    + destruct (t <=? tr) eqn:Hle; [eauto|].
      apply Nat.leb_gt in Hle. exists tr, ar. split; [reflexivity|lia].
    + eauto.
  - destruct (IH Hin) as (t' & a' & -> & Hle).
    destruct p as [[tp [ap|e]]|]; eauto.
    destruct (tp <=? t') eqn:E; [|eauto].
    apply Nat.leb_le in E. exists tp, ap. split; [reflexivity|lia].
Qed.

Lemma failures_all_rejected (ps : list (promise A)) errors :
  failures ps errors ->
  first_fulfilled ps = None /\ exists t, all_rejected ps = Some (t, errors).
Proof.
  unfold failures. induction 1 as [|p e ps errors [t ->] _ [IH1 [tm IH2]]]; simpl.
  - eauto.
  - rewrite IH1, IH2. eauto.
Qed.

End AnyFacts.

Lemma race_won now candidates t ip :
  first_fulfilled candidates = Some (t, ip) ->
  race now candidates = resolve (resume now (resume now t)) ip.
Proof.
  intros H. unfold race, promise_any. rewrite H. reflexivity.
Qed.

Lemma lastError_positional errors :
  lastError (VAggregateError errors) = positional_cause errors.
Proof.
  unfold lastError, positional_cause. cbn [errors_of].
  induction errors as [|e0 errors _] using rev_ind; [reflexivity|].
  rewrite map_app. cbn [map]. rewrite last_last, rev_unit. reflexivity.
Qed.

Lemma race_lost now candidates errors :
  failures candidates errors ->
  exists t, race now candidates = reject t (IpNotFoundError (positional_cause errors)).
Proof.
  intros H. destruct (failures_all_rejected _ _ H) as [H1 [t H2]].
  unfold race, promise_any. rewrite H1, H2. simpl.
  rewrite lastError_positional. eauto.
Qed.

(** A race won: the winner is a candidate of the list, no candidate fulfils
    before it. *)
Lemma race_earliest {T} (f : T -> promise jsstring) (targets : list T) now x tx ipx :
  In x targets -> f x = Some (tx, Fulfilled ipx) ->
  exists t ip,
    race now (map f targets) = Some (t, Fulfilled ip)
    /\ exists y ty, In y targets /\ f y = Some (ty, Fulfilled ip) /\ ty <= tx.
Proof.
  intros Hin Hx.
  assert (Hin' : In (Some (tx, Fulfilled ipx)) (map f targets)).
  { rewrite <- Hx. apply in_map, Hin. }
  destruct (first_fulfilled_complete _ _ _ Hin') as (t' & ip' & Hff & Hle).
  exists (resume now (resume now t')), ip'. split; [apply race_won, Hff|].
  destruct (first_fulfilled_sound _ _ _ Hff) as [Hw _].
  apply in_map_iff in Hw as (y & Hy & Hyin). eauto.
Qed.

(** C1: when a candidate of a race completes with a string the validator
    accepts, the race resolves with a validated string, the output of a
    candidate that completed no later; it is that very string as soon as
    every candidate with another output completes later.  Failures and
    candidates that never complete play no part. *)
Theorem candidate_race_first_valid (k : Constants) (w : World) (version : family) :
  (forall urls options abortSignal now url t1 response t2 raw,
     In url (urlList urls options) ->
     fetch w url abortSignal now = Some (t1, Fulfilled response) ->
     ok response = true ->
     text response (resume now t1) = Some (t2, Fulfilled raw) ->
     validateIp raw (tag version) = true ->
     exists t ip,
       result (queryHttps w version urls options abortSignal now) = Some (t, Fulfilled ip)
       /\ validateIp ip (tag version) = true
       /\ (exists url' t', In url' (urlList urls options)
             /\ request w version abortSignal now url' = Some (t', Fulfilled ip)
             /\ t' <= resume (resume now t1) t2)
       /\ ((forall url' t' ip', In url' (urlList urls options) ->
              request w version abortSignal now url' = Some (t', Fulfilled ip') ->
              ip' = raw \/ resume (resume now t1) t2 < t') ->
           ip = raw))
  /\ (forall now server q t1 data rest,
     In (server, q) (dnsTargets k version) ->
     socketQuery w (socket_of version) server (name q) (type q) now
       = Some (t1, Fulfilled {| answers := data :: rest |}) ->
     validateIp (transformed (transform q) (trim (data_text data))) (tag version) = true ->
     exists t ip,
       result (queryDns k w version now) = Some (t, Fulfilled ip)
       /\ validateIp ip (tag version) = true
       /\ (exists target t', In target (dnsTargets k version)
             /\ createDnsQuery w (fst target) version (snd target) now = Some (t', Fulfilled ip)
             /\ t' <= resume now t1)
       /\ ((forall target t' ip', In target (dnsTargets k version) ->
              createDnsQuery w (fst target) version (snd target) now = Some (t', Fulfilled ip') ->
              ip' = transformed (transform q) (trim (data_text data)) \/ resume now t1 < t') ->
           ip = transformed (transform q) (trim (data_text data)))).
Proof.
  split.
  - intros urls options abortSignal now url t1 response t2 raw Hin Hf Hok Htx Hv.
    pose proof (request_text w version _ _ _ _ _ _ _ Hf Hok Htx) as Hreq.
    rewrite (trim_valid _ _ Hv), Hv in Hreq.
    destruct (race_earliest (request w version abortSignal now) _ now _ _ _ Hin Hreq)
      as (t & ip & Hrace & url' & t' & Hin' & Hreq' & Hle).
    exists t, ip. split; [exact Hrace|].
    split; [eapply request_fulfilled, Hreq'|].
    split; [eauto|].
    intros Hothers. destruct (Hothers _ _ _ Hin' Hreq') as [->|Hlt]; [reflexivity|lia].
  - intros now server q t1 data rest Hin Hq Hv.
    pose proof (createDnsQuery_answer w version _ _ _ _ _ _ Hq) as Hreq.
    cbv zeta in Hreq. rewrite Hv in Hreq.
    destruct (race_earliest (fun target => createDnsQuery w (fst target) version (snd target) now)
                _ now (server, q) _ _ Hin Hreq)
      as (t & ip & Hrace & target & t' & Hin' & Hreq' & Hle).
    exists t, ip. split; [exact Hrace|].
    split; [eapply createDnsQuery_fulfilled, Hreq'|].
    split; [eauto|].
    intros Hothers. destruct (Hothers _ _ _ Hin' Hreq') as [->|Hlt]; [reflexivity|lia].
Qed.

Lemma candidate_race_first_valid_witness :
  (exists t, result (queryHttps w_https_up v4 [icanhazip; ipify] no_options None 0)
             = Some (t, Fulfilled (js "203.0.113.11")))
  /\ (exists t, result (queryDns constants w_dns_up v4 0)
                = Some (t, Fulfilled (js "203.0.113.20"))).
Proof.
  split.
  - destruct (proj1 (candidate_race_first_valid constants w_https_up v4)
                [icanhazip; ipify] no_options None 0 ipify 4
                (body 1 (js "203.0.113.11")) 6 (js "203.0.113.11"))
      as (t & ip & Hres & _ & _ & Hraw);
      [right; left; reflexivity | reflexivity | reflexivity | reflexivity
      | vm_compute; reflexivity |].
    exists t. rewrite Hres, Hraw; [reflexivity|].
    intros url' t' ip' [<-|[<-|[]]] H; vm_compute in H; injection H as <- <-.
    + right. vm_compute. lia.
    + left. reflexivity.
  - destruct (proj2 (candidate_race_first_valid constants w_dns_up v4)
                0 (js "216.239.32.10") (question (google v4)) 4
                (DataObject (32 :: 34 :: js "203.0.113.20" ++ [34; 32])%N) [])
      as (t & ip & Hres & _ & _ & Hraw);
      [right; right; left; reflexivity | reflexivity | vm_compute; reflexivity |].
    exists t. rewrite Hres, Hraw; [reflexivity|].
    intros target t' ip' [<-|[<-|[<-|[]]]] H; vm_compute in H;
      try discriminate; injection H as <- <-.
    + right. vm_compute. lia.
    + left. reflexivity.
Defined.

(** ** Exhausted races *)

(** A candidate whose text the validator refuses fails with [Invalid IP]. *)
Lemma request_invalid w version abortSignal now url t1 response t2 raw :
  fetch w url abortSignal now = Some (t1, Fulfilled response) ->
  ok response = true ->
  text response (resume now t1) = Some (t2, Fulfilled raw) ->
  validateIp (trim raw) (tag version) = false ->
  request w version abortSignal now url = reject (resume (resume now t1) t2) invalid_ip.
Proof.
  intros Hf Hok Htx Hv.
  rewrite (request_text w version _ _ _ _ _ _ _ Hf Hok Htx), Hv. reflexivity.
Qed.

(** C3, as the spec words it, fails: the cause is not the failure observed
    last.  [icanhazip] fails at instant 51, after [ipify] failed at 13, and
    the cause reported is the failure of [ipify], the last URL of the list. *)
Lemma last_observed_cause_counterexample :
  ~ (forall (w : World) version urls options abortSignal now errors,
       failures (map (request w version abortSignal now) (urlList urls options)) errors ->
       exists t tc c,
         result (queryHttps w version urls options abortSignal now)
           = Some (t, Rejected (IpNotFoundError c))
         /\ last_observed (map (request w version abortSignal now) (urlList urls options))
            = Some (tc, c)).
Proof.
  intros H.
  destruct (H w_late_failure v4 [icanhazip; ipify] no_options None 0
              [network_error; invalid_ip]) as (t & tc & c & Hres & Hlast).
  - repeat constructor; eexists; vm_compute; reflexivity.
  - vm_compute in Hres. vm_compute in Hlast.
    injection Hres as _ <-. discriminate.
Qed.

(** C3, amended: when every candidate of a race fails, the race rejects with
    a Not-Found Error whose cause is the failure of the last candidate of
    the list, whatever the order in which the failures were observed; the
    cause is the aggregate itself when the list is empty or that failure is
    [null] or [undefined]. *)
Theorem race_exhausted_cause (k : Constants) (w : World) (version : family) :
  (forall urls options abortSignal now errors,
     failures (map (request w version abortSignal now) (urlList urls options)) errors ->
     exists t,
       result (queryHttps w version urls options abortSignal now)
         = Some (t, Rejected (IpNotFoundError (positional_cause errors))))
  /\ (forall now errors,
     failures (map (fun target => createDnsQuery w (fst target) version (snd target) now)
                   (dnsTargets k version)) errors ->
     exists t,
       result (queryDns k w version now)
         = Some (t, Rejected (IpNotFoundError (positional_cause errors))))
  /\ (forall errors e, nullish e = false -> positional_cause (errors ++ [e]) = e)
  /\ positional_cause [] = VAggregateError [].
Proof.
  split; [|split; [|split]].
  - intros urls options abortSignal now errors H. apply race_lost, H.
  - intros now errors H. apply race_lost, H.
  - intros errors e He. unfold positional_cause. rewrite rev_unit, He. reflexivity.
  - reflexivity.
Qed.

Lemma race_exhausted_cause_witness :
  exists t,
    result (queryHttps w_late_failure v4 [icanhazip; ipify] no_options None 0)
      = Some (t, Rejected (IpNotFoundError invalid_ip)).
Proof.
  destruct (proj1 (race_exhausted_cause constants w_late_failure v4)
              [icanhazip; ipify] no_options None 0 [network_error; invalid_ip])
    as [t Ht].
  - repeat constructor; eexists; vm_compute; reflexivity.
  - exists t. exact Ht.
Defined.

(** ** Strategy fallback *)

Lemma merge_onlyHttps defaults options b :
  onlyHttps options = Some (Some b) -> wants_onlyHttps (merge defaults options) = b.
Proof. intros H. unfold wants_onlyHttps, merge. simpl. rewrite H. reflexivity. Qed.

Lemma createAbortSignal_none timeout now :
  truthy_timeout timeout = None -> createAbortSignal timeout None now = Returns None.
Proof. intros H. unfold createAbortSignal. rewrite H. reflexivity. Qed.

(** C2: with [onlyHttps] false, when the DNS race fails the HTTPS race is
    started and its result is the result of the pipeline: a success is passed
    on, and when the HTTPS race fails too the rejection is its Not-Found
    Error, built from the HTTPS failures alone.  Without timeout and signal
    the call settles as the pipeline does. *)
Theorem dns_failure_falls_back (k : Constants) (w : World) (version : family)
    (options : Options) (abortSignal : option AbortSignal) (now t : time) (e : value) :
  wants_onlyHttps options = false ->
  result (queryDns k w version now) = Some (t, Rejected e) ->
  let https := queryHttps w version (httpsUrls k version) options abortSignal (resume now t) in
  let run := nodeQueryFunction k w version options abortSignal now in
  calls run = calls (queryDns k w version now) ++ calls https
  /\ result run = adopt (resume now t) (result https)
  /\ (forall t' ip, result https = Some (t', Fulfilled ip) ->
        result run = resolve (resume (resume now t) t') ip)
  /\ (forall errors,
        failures (map (request w version abortSignal (resume now t))
                      (urlList (httpsUrls k version) options)) errors ->
        exists t', result run = reject t' (IpNotFoundError (positional_cause errors)))
  /\ (forall caller,
        merge (defaults k) caller = options ->
        truthy_timeout (read (timeout options)) = None ->
        read (signal options) = None ->
        abortSignal = None ->
        outcome (createIpFunction k version (nodeQueryFunction k w) caller now)
          = Returns (adopt now (result run))).
Proof.
  intros Honly Hdns https run.
  assert (Hrun : run = {| result := adopt (resume now t) (result https);
                          calls := calls (queryDns k w version now) ++ calls https |}).
  { unfold run, nodeQueryFunction, queryAll. rewrite Honly, Hdns. reflexivity. }
  rewrite Hrun. cbn [result calls].
  split; [reflexivity|]. split; [reflexivity|]. split; [|split].
  - intros t' ip H. rewrite H. reflexivity.
  - intros errors H. destruct (race_lost (resume now t) _ _ H) as [t' Ht'].
    unfold https, queryHttps. cbn [result]. rewrite Ht'. simpl. eauto.
  - intros caller Hm Ht Hs ->. unfold createIpFunction, createQuery.
    rewrite Hm, Hs, (createAbortSignal_none _ _ Ht). cbn [outcome].
    fold run. rewrite Hrun. reflexivity.
Qed.

Lemma dns_failure_falls_back_witness :
  outcome (publicIpv4 constants w_fallback
             {| timeout := None; signal := None; onlyHttps := None;
                fallbackUrls := Some (Some [ifconfig]) |} 0)
  = Returns (resolve 20 (js "192.168.1.1")).
Proof.
  pose (options := merge (defaults constants)
                     {| timeout := None; signal := None; onlyHttps := None;
                        fallbackUrls := Some (Some [ifconfig]) |}).
  destruct (dns_failure_falls_back constants w_fallback v4 options None 0 5
              (IpNotFoundError dns_error))
    as (_ & _ & Hok & _ & Hcall); [reflexivity | vm_compute; reflexivity |].
  unfold publicIpv4. rewrite (Hcall _ eq_refl eq_refl eq_refl eq_refl).
  rewrite (Hok 18 (js "192.168.1.1")); [reflexivity | vm_compute; reflexivity].
Defined.

(** C4: with [onlyHttps] true no DNS query is issued; the requests issued
    are the fetches of the built-in URLs of the family followed by the
    fallback URLs, in order, and the call is the HTTPS race over that list
    inside the cancellation envelope. *)
Theorem https_only_skips_dns (k : Constants) (w : World) (version : family)
    (options : Options) (now : time) :
  onlyHttps options = Some (Some true) ->
  let merged := merge (defaults k) options in
  let run := createIpFunction k version (nodeQueryFunction k w) options now in
  (forall socket server name type, ~ In (CallDns socket server name type) (issued run))
  /\ (forall abortSignal,
        createAbortSignal (read (timeout merged)) (read (signal merged)) now
          = Returns abortSignal ->
        issued run = map (fun url => CallFetch url abortSignal)
                         (urlList (httpsUrls k version) merged)
        /\ outcome run
           = Returns (withAbortSignal
                        (race now (map (request w version abortSignal now)
                                       (urlList (httpsUrls k version) merged)))
                        abortSignal now))
  /\ (forall extra, fallbackUrls options = Some (Some extra) ->
        urlList (httpsUrls k version) merged = httpsUrls k version ++ extra).
Proof.
  intros Honly merged run.
  pose proof (merge_onlyHttps (defaults k) options true Honly) as Hm. fold merged in Hm.
  assert (Hrun : forall abortSignal,
             createAbortSignal (read (timeout merged)) (read (signal merged)) now
               = Returns abortSignal ->
             run = {| outcome := Returns (withAbortSignal
                        (race now (map (request w version abortSignal now)
                                       (urlList (httpsUrls k version) merged)))
                        abortSignal now);
                      issued := map (fun url => CallFetch url abortSignal)
                                    (urlList (httpsUrls k version) merged) |}).
  { intros abortSignal H. unfold run, createIpFunction, createQuery. fold merged.
    rewrite H. unfold nodeQueryFunction. rewrite Hm. reflexivity. }
  split; [|split].
  - intros socket server name type Hin.
    destruct (createAbortSignal (read (timeout merged)) (read (signal merged)) now)
      as [e|abortSignal] eqn:E.
    + unfold run, createIpFunction, createQuery in Hin. fold merged in Hin.
      rewrite E in Hin. exact Hin.
    + rewrite (Hrun _ eq_refl) in Hin. cbn [issued] in Hin.
      apply in_map_iff in Hin as (url & Hurl & _). discriminate.
  - intros abortSignal H. rewrite (Hrun _ H). split; reflexivity.
  - intros extra H. unfold urlList, merged, merge. simpl. rewrite H. reflexivity.
Qed.

Lemma https_only_skips_dns_witness :
  issued (publicIpv4 constants w_fallback
            {| timeout := None; signal := None; onlyHttps := Some (Some true);
               fallbackUrls := Some (Some [ifconfig]) |} 0)
  = [CallFetch icanhazip None; CallFetch ipify None; CallFetch ifconfig None].
Proof.
  destruct (https_only_skips_dns constants w_fallback v4
              {| timeout := None; signal := None; onlyHttps := Some (Some true);
                 fallbackUrls := Some (Some [ifconfig]) |} 0 eq_refl)
    as (_ & Hrun & Hurls).
  destruct (Hrun None eq_refl) as [Hissued _].
  unfold publicIpv4. rewrite Hissued, (Hurls [ifconfig] eq_refl). reflexivity.
Defined.

(** ** The cancellation envelope *)


(** C6: a signal that is already aborted when the call begins makes the call
    fail at once with the reason of the signal, and no transport request is
    issued. *)
Theorem aborted_signal_fails_at_once (k : Constants) (version : family)
    (queryFunction : family -> Options -> option AbortSignal -> time -> Run)
    (options : Options) (now : time) (s : AbortSignal) (t : time) (reason : value) :
  signal options = Some (Some s) ->
  firing s = Some (t, reason) ->
  t <= now ->
  createIpFunction k version queryFunction options now
    = {| outcome := Throws reason; issued := [] |}.
Proof.
  intros Hs Hf Hle. unfold createIpFunction, createQuery, createAbortSignal, merge.
  cbn [signal read spread]. rewrite Hs. cbn. unfold throwIfAborted. rewrite Hf.
  apply Nat.leb_le in Hle. rewrite Hle. reflexivity.
Qed.

Lemma aborted_signal_fails_at_once_witness :
  publicIpv4 constants w_https_up
    {| timeout := None; signal := Some (Some (controller_abort 0));
       onlyHttps := None; fallbackUrls := None |} 3
  = {| outcome := Throws (VError (js "Operation timed out")); issued := [] |}.
Proof.
  apply (aborted_signal_fails_at_once constants v4 (nodeQueryFunction constants w_https_up)
           _ 3 (controller_abort 0) 0 (VError (js "Operation timed out")));
    [reflexivity | reflexivity | lia].
Defined.



(** While every transport call is still to settle at an instant, so is the
    pipeline: its own rejection, a Not-Found Error, can only come later. *)
Section StillPending.

Variable w : World.
Variable ts : time.

Hypothesis fetch_pends :
  forall url abortSignal now t r, fetch w url abortSignal now = Some (t, r) -> ts <= t.
Hypothesis socket_pends :
  forall socket server name type now t r,
    socketQuery w socket server name type now = Some (t, r) -> ts <= t.

Lemma request_pending version abortSignal now url :
  pending_at (request w version abortSignal now url) ts.
Proof.
  unfold request, await, try_await, resolve, reject, resume.
  destruct (fetch w url abortSignal now) as [[t1 [response|e]]|] eqn:E;
    [apply fetch_pends in E | apply fetch_pends in E; cbn [pending_at]; lia | exact I].
  destruct (negb (ok response)); [cbn [pending_at]; lia|].
  destruct (text response (S (Nat.max now t1))) as [[t2 [responseText|e]]|];
    [destruct (validateIp _ _) | |]; cbn [pending_at]; auto; lia.
Qed.

Lemma createDnsQuery_pending server version q now :
  pending_at (createDnsQuery w server version q now) ts.
Proof.
  unfold createDnsQuery, await, try_await, resolve, reject, resume.
  destruct (socketQuery w (socket_of version) server (name q) (type q) now)
    as [[t1 [[[|data rest]]|e]]|] eqn:E; [| | |exact I];
    apply socket_pends in E; cbn [answers];
    [| destruct (validateIp _ _) |]; cbn [pending_at]; lia.
Qed.

Lemma all_rejected_latest {A} (ps : list (promise A)) tm errors :
  all_rejected ps = Some (tm, errors) ->
  forall t r, In (Some (t, r)) ps -> t <= tm.
Proof.
  revert tm errors. induction ps as [|p ps IH]; simpl; intros tm errors H t r; [easy|].
  destruct p as [[tp [a|e]]|]; try discriminate.
  destruct (all_rejected ps) as [[tm' es]|]; [|discriminate].
  injection H as <- <-. intros [Heq|Hin].
  - injection Heq as <- _. lia.
  - specialize (IH _ _ eq_refl _ _ Hin). lia.
Qed.

Lemma race_pending now (candidates : list (promise jsstring)) :
  candidates <> [] ->
  Forall (fun p => pending_at p ts) candidates ->
  pending_at (race now candidates) ts.
Proof.
  intros Hne Hall. unfold race, promise_any, try_await, resolve, reject, resume.
  rewrite Forall_forall in Hall.
  destruct (first_fulfilled candidates) as [[t a]|] eqn:E.
  - destruct (first_fulfilled_sound _ _ _ E) as [Hin _].
    specialize (Hall _ Hin). cbn [pending_at] in *. lia.
  - destruct (all_rejected candidates) as [[tm errors]|] eqn:Er; [|exact I].
    destruct candidates as [|p ps]; [congruence|].
    assert (Hp : exists t r, p = Some (t, r)).
    { simpl in Er. destruct p as [[t r]|]; [eauto|discriminate]. }
    destruct Hp as (t & r & ->).
    pose proof (all_rejected_latest _ _ _ Er t r (or_introl eq_refl)).
    specialize (Hall _ (or_introl eq_refl)). cbn [pending_at] in *. lia.
Qed.

Lemma nodeQueryFunction_pending k version options abortSignal now :
  urlList (httpsUrls k version) options <> [] ->
  dnsTargets k version <> [] ->
  pending_at (result (nodeQueryFunction k w version options abortSignal now)) ts.
Proof.
  intros Hurls Hdns.
  assert (Hhttps : forall t,
             pending_at (result (queryHttps w version (httpsUrls k version) options
                                            abortSignal t)) ts).
  { intros t. unfold queryHttps. cbn [result]. apply race_pending.
    - destruct (urlList (httpsUrls k version) options); [congruence|discriminate].
    - apply Forall_forall. intros p Hp. apply in_map_iff in Hp as (url & <- & _).
      apply request_pending. }
  unfold nodeQueryFunction. destruct (wants_onlyHttps options); [apply Hhttps|].
  assert (Hd : pending_at (result (queryDns k w version now)) ts).
  { unfold queryDns. cbn [result]. apply race_pending.
    - destruct (dnsTargets k version); [congruence|discriminate].
    - apply Forall_forall. intros p Hp. apply in_map_iff in Hp as (target & <- & _).
      apply createDnsQuery_pending. }
  unfold queryAll.
  destruct (result (queryDns k w version now)) as [[t [ip|e]]|];
    cbn [result pending_at] in *.
  - unfold resolve, resume. cbn [pending_at]. lia.
  - unfold adopt, await, try_await, resolve, reject, resume.
    destruct (result (queryHttps w version (httpsUrls k version) options abortSignal
                                 (S (Nat.max now t)))) as [[t' [ip|e']]|];
      cbn [pending_at]; auto; lia.
  - exact I.
Qed.

End StillPending.



(** ** The dual-family entry point *)

(** C8: when one of the two pipelines succeeds, the call resolves with the
    first valid IP produced; when both fail, the call rejects with the
    failure of the family that failed first, a Not-Found Error carrying the
    cause of that family when the failure is a Not-Found Error. *)
Theorem either_family_first_success (k : Constants) (w : World)
    (options : Options) (now : time) (p4 p6 : promise jsstring) :
  outcome (publicIpv4 k w options now) = Returns p4 ->
  outcome (publicIpv6 k w options now) = Returns p6 ->
  (forall t ip,
     p4 = Some (t, Fulfilled ip) \/ p6 = Some (t, Fulfilled ip) ->
     exists t' ip',
       outcome (publicIp k w options now) = Returns (resolve (resume now t') ip')
       /\ (p4 = Some (t', Fulfilled ip') \/ p6 = Some (t', Fulfilled ip'))
       /\ t' <= t)
  /\ (forall t4 c4 t6 c6,
        p4 = Some (t4, Rejected (IpNotFoundError c4)) ->
        p6 = Some (t6, Rejected (IpNotFoundError c6)) ->
        outcome (publicIp k w options now)
          = Returns (reject (resume now (Nat.max t4 t6))
                            (IpNotFoundError (if t4 <=? t6 then c4 else c6)))).
Proof.
  intros H4 H6.
  assert (Hrun : outcome (publicIp k w options now) = Returns (either_family now p4 p6)).
  { unfold publicIp, createPublicIp. rewrite H4, H6. reflexivity. }
  rewrite Hrun. split.
  - intros t ip Hsucc.
    assert (Hin : In (Some (t, Fulfilled ip)) [p4; p6]).
    { destruct Hsucc as [->| ->]; simpl; auto. }
    destruct (first_fulfilled_complete _ _ _ Hin) as (t' & ip' & Hff & Hle).
    exists t', ip'. unfold either_family. rewrite Hff.
    destruct (first_fulfilled_sound _ _ _ Hff) as [[Hw|[Hw|[]]] _]; auto.
  - intros t4 c4 t6 c6 -> ->. unfold either_family. simpl.
    destruct (t4 <=? t6); reflexivity.
Qed.

Lemma either_family_first_success_witness :
  outcome (publicIp constants w_dns_up no_options 0)
    = Returns (resolve 10 (js "203.0.113.20")).
Proof.
  destruct (either_family_first_success constants w_dns_up no_options 0
              (resolve 9 (js "203.0.113.20"))
              (reject 18 (IpNotFoundError network_error)))
    as [Hsucc _]; [vm_compute; reflexivity | vm_compute; reflexivity |].
  destruct (Hsucc 9 (js "203.0.113.20") (or_introl eq_refl))
    as (t' & ip' & Hrun & [Hw|Hw] & _); [|discriminate].
  injection Hw as <- <-. exact Hrun.
Defined.

(** * Further properties of the code *)

Import Scenarios.

(** ** The validator and the candidates *)

(** X1: a string that holds a blank anywhere is refused, for every family
    argument. *)
Theorem validateIp_refuses_blanks (s : jsstring) (f : value) (c : unit16) :
  In c s -> is_space c = true -> validateIp s f = false.
Proof.
  intros Hin Hc. destruct (validateIp s f) eqn:E; [|reflexivity].
  apply validateIp_solid in E as [_ E].
  rewrite forallb_forall in E. specialize (E _ Hin).
  unfold not_space in E. rewrite Hc in E. discriminate.
Qed.

Lemma validateIp_refuses_blanks_witness :
  validateIp (js "203.0.113.10" ++ 10%N :: js "203.0.113.11") (tag v4) = false.
Proof.
  apply (validateIp_refuses_blanks _ _ 10%N);
    [apply in_or_app; right; left; reflexivity | reflexivity].
Defined.

(** X2: an HTTPS candidate fulfils exactly when [fetch] gives an ok response
    whose text, trimmed, is accepted, and then with the trimmed text; when it
    rejects, the reason is the rejection of [fetch], the HTTP status error of
    a response that is not ok (its body is not read), the rejection of
    [text()], or [Invalid IP]. *)
Theorem request_outcomes (w : World) (version : family)
    (abortSignal : option AbortSignal) (now : time) (url : jsstring) :
  (forall t ip,
     request w version abortSignal now url = Some (t, Fulfilled ip) <->
     exists t1 response t2 raw,
       fetch w url abortSignal now = Some (t1, Fulfilled response)
       /\ ok response = true
       /\ text response (resume now t1) = Some (t2, Fulfilled raw)
       /\ ip = trim raw /\ validateIp ip (tag version) = true
       /\ t = resume (resume now t1) t2)
  /\ (forall t1 response,
        fetch w url abortSignal now = Some (t1, Fulfilled response) ->
        ok response = false ->
        request w version abortSignal now url = reject (resume now t1) (http_error response))
  /\ (forall t e,
        request w version abortSignal now url = Some (t, Rejected e) ->
        (exists t1, fetch w url abortSignal now = Some (t1, Rejected e))
        \/ (exists t1 response,
              fetch w url abortSignal now = Some (t1, Fulfilled response)
              /\ (ok response = false /\ e = http_error response
                  \/ ok response = true
                     /\ ((exists t2, text response (resume now t1) = Some (t2, Rejected e))
                         \/ e = invalid_ip)))).
Proof.
  unfold request, await, try_await, resolve, reject.
  destruct (fetch w url abortSignal now) as [[t1 [response|e1]]|].
  - destruct (ok response) eqn:Hok; cbn [negb].
    + destruct (text response (resume now t1)) as [[t2 [raw|e2]]|] eqn:Htx.
      * destruct (validateIp (trim raw) (tag version)) eqn:Hv; (split; [|split]).
        -- intros t ip. split.
           ++ intros H. injection H as <- <-. exists t1, response, t2, raw. auto 10.
           ++ intros (t1' & response' & t2' & raw' & H1 & _ & H2 & -> & _ & ->).
              injection H1 as <- <-. rewrite Htx in H2. injection H2 as <- <-. reflexivity.
        -- intros t1' response' H Hok'. injection H as <- <-. congruence.
        -- intros t e H. discriminate.
        -- intros t ip. split; [discriminate|].
           intros (t1' & response' & t2' & raw' & H1 & _ & H2 & -> & Hv' & ->).
           injection H1 as <- <-. rewrite Htx in H2. injection H2 as <- <-. congruence.
        -- intros t1' response' H Hok'. injection H as <- <-. congruence.
        -- intros t e H. injection H as <- <-. right. exists t1, response. eauto 10.
      * split; [|split].
        -- intros t ip. split; [discriminate|].
           intros (t1' & response' & t2' & raw' & H1 & _ & H2 & _).
           injection H1 as <- <-. rewrite Htx in H2. discriminate.
        -- intros t1' response' H Hok'. injection H as <- <-. congruence.
        -- intros t e H. injection H as <- <-. right. exists t1, response. eauto 10.
      * split; [|split].
        -- intros t ip. split; [discriminate|].
           intros (t1' & response' & t2' & raw' & H1 & _ & H2 & _).
           injection H1 as <- <-. rewrite Htx in H2. discriminate.
        -- intros t1' response' H Hok'. injection H as <- <-. congruence.
        -- intros t e H. discriminate.
    + split; [|split].
      * intros t ip. split; [discriminate|].
        intros (t1' & response' & t2' & raw' & H1 & Hok' & _).
        injection H1 as <- <-. congruence.
      * intros t1' response' H _. injection H as <- <-. reflexivity.
      * intros t e H. injection H as <- <-. right. exists t1, response. auto.
  - split; [|split].
    + intros t ip. split; [discriminate|].
      intros (t1' & response' & t2' & raw' & H1 & _). discriminate.
    + intros t1' response' H. discriminate.
    + intros t e H. injection H as <- <-. left. eauto.
  - split; [|split].
    + intros t ip. split; [discriminate|].
      intros (t1' & response' & t2' & raw' & H1 & _). discriminate.
    + intros t1' response' H. discriminate.
    + intros t e H. discriminate.
Qed.

Lemma request_outcomes_witness :
  request w_unavailable v4 None 0 icanhazip
  = reject 3 (VError (js "HTTP 503: Service Unavailable")).
Proof.
  apply (proj1 (proj2 (request_outcomes w_unavailable v4 None 0 icanhazip)) 2
           {| ok := false; status := 503; statusText := js "Service Unavailable";
              text := fun _ => None |});
    reflexivity.
Defined.
